(** * AllPerks.jsx: the debounced search page of the perks client

    A shallow embedding of [client/src/pages/AllPerks.jsx]: the [useDebounce]
    hook, the [AllPerks] component state, its three effects and its event
    handlers, run by a small model of the React commit cycle (state setters
    batched per event, effects re-run when a dependency changed, cleanups
    run before a re-run and on unmount), of [setTimeout]/[clearTimeout] and
    of the promise returned by [api.get]. *)

From Stdlib Require Import List Bool Arith NArith Lia String Ascii.
Import ListNotations.
Local Open Scope list_scope.

(** ** JavaScript strings *)

Module JS.

(** A string is its sequence of UTF-16 code units. *)
Definition jsstring := list N.

(** A literal that only holds ASCII characters. *)
Definition lit (s : string) : jsstring :=
  map N_of_ascii (list_ascii_of_string s).

Definition empty : jsstring := [].

(** WhiteSpace and LineTerminator code points, the ones
    [String.prototype.trim] strips. *)
Definition isWhiteSpace (c : N) : bool :=
  ((9 <=? c) && (c <=? 13) || (c =? 32) || (c =? 160) || (c =? 5760)
   || (8192 <=? c) && (c <=? 8202) || (c =? 8232) || (c =? 8233)
   || (c =? 8239) || (c =? 8287) || (c =? 12288) || (c =? 65279))%N.

Fixpoint trimStart (s : jsstring) : jsstring :=
  match s with
  | c :: s' => if isWhiteSpace c then trimStart s' else s
  | [] => []
  end.

Definition trimEnd (s : jsstring) : jsstring := rev (trimStart (rev s)).

Definition trim (s : jsstring) : jsstring := trimEnd (trimStart s).

Fixpoint eqb (a b : jsstring) : bool :=
  match a, b with
  | [], [] => true
  | x :: a', y :: b' => (x =? y)%N && eqb a' b'
  | _, _ => false
  end.

(** Truthiness of a string: every string but the empty one. *)
Definition truthy (s : jsstring) : bool :=
  match s with [] => false | _ :: _ => true end.

(** [s || undefined] *)
Definition orUndefined (s : jsstring) : option jsstring :=
  if truthy s then Some s else None.

(** [m || fallback], where [m] may be [undefined] *)
Definition orElse (m : option jsstring) (fallback : jsstring) : jsstring :=
  match m with
  | Some s => if truthy s then s else fallback
  | None => fallback
  end.

(** [[...new Set(l)]]: every element is added in turn, an element that
    is already in the set is skipped, and the set is read back in
    insertion order. *)
Definition Set_add (acc : list jsstring) (x : jsstring) : list jsstring :=
  if existsb (eqb x) acc then acc else acc ++ [x].

Definition Set_of (l : list jsstring) : list jsstring :=
  fold_left Set_add l [].

End JS.

Import JS.

(** ** Perks and the derived merchant list *)

Record Perk := mkPerk {
  _id : jsstring;
  title : jsstring;
  category : jsstring;
  merchant : option jsstring
}.

(** [merchant && merchant.trim()], as the filter callback reads it: an
    absent merchant is falsy, a string is kept when its trimmed form is
    not empty. *)
Definition keepMerchant (m : option jsstring) : bool :=
  match m with
  | Some s => truthy s && truthy (trim s)
  | None => false
  end.

Fixpoint someValues (l : list (option jsstring)) : list jsstring :=
  match l with
  | Some s :: l' => s :: someValues l'
  | None :: l' => someValues l'
  | [] => []
  end.

(** [perks.map(perk => perk.merchant).filter(merchant => merchant && merchant.trim())] *)
Definition merchantsOf (perks : list Perk) : list jsstring :=
  someValues (filter keepMerchant (map merchant perks)).

(** The body of the merchant effect up to [setUniqueMerchants]. *)
Definition deriveUniqueMerchants (perks : list Perk) : list jsstring :=
  Set_of (merchantsOf perks).

(** ** The collaborator: [api.get('/perks/all', { params })] *)

Module Api.

(** The [params] object of one call; [None] is [undefined], a parameter
    the request does not carry. *)
Record Params := mkParams {
  search : option jsstring;
  merchant : option jsstring
}.

(** The shape [err?.response?.data?.message] reads. *)
Record ErrData := mkErrData { message : option jsstring }.
Record ErrResponse := mkErrResponse { data : option ErrData }.
Record Err := mkErr { response : option ErrResponse }.

Definition chain {A B : Type} (o : option A) (f : A -> option B) : option B :=
  match o with
  | Some a => f a
  | None => None
  end.

(** [err?.response?.data?.message] *)
Definition errMessage (err : option Err) : option jsstring :=
  chain (chain (chain err response) data) message.

End Api.

(** ** Component state *)

(** The debounce delay [useDebounce(searchQuery, 500)] is called with, in
    milliseconds. *)
Definition delay : N := 500.

Definition fallbackMessage : jsstring := lit "Failed to load perks".

(** The [useState] cells of [AllPerks] and of its [useDebounce] call, and
    what the page holds outside React: the timeout its debounce effect has
    armed, and the calls it has made to the collaborator. *)
Record State := mkState {
  perks : list Perk;
  perksRef : nat;                      (* identity of the array in [perks] *)
  searchQuery : jsstring;
  merchantFilter : jsstring;
  uniqueMerchants : list jsstring;
  loading : bool;
  error : jsstring;
  debouncedValue : jsstring;           (* the cell of [useDebounce] *)
  mounted : bool;
  timer : option (N * jsstring);       (* pending timeout: ms left, captured [value] *)
  debouncedUpdates : nat;              (* runs of the timeout callback *)
  requests : list Api.Params;          (* calls of [api.get], oldest first *)
  pending : list nat                   (* indices in [requests] not settled yet *)
}.

Definition setPerks (v : list Perk) (s : State) : State :=
  mkState v (S (perksRef s)) (searchQuery s) (merchantFilter s)
    (uniqueMerchants s) (loading s) (error s) (debouncedValue s) (mounted s)
    (timer s) (debouncedUpdates s) (requests s) (pending s).

Definition setSearchQuery (v : jsstring) (s : State) : State :=
  mkState (perks s) (perksRef s) v (merchantFilter s)
    (uniqueMerchants s) (loading s) (error s) (debouncedValue s) (mounted s)
    (timer s) (debouncedUpdates s) (requests s) (pending s).

Definition setMerchantFilter (v : jsstring) (s : State) : State :=
  mkState (perks s) (perksRef s) (searchQuery s) v
    (uniqueMerchants s) (loading s) (error s) (debouncedValue s) (mounted s)
    (timer s) (debouncedUpdates s) (requests s) (pending s).

Definition setUniqueMerchants (v : list jsstring) (s : State) : State :=
  mkState (perks s) (perksRef s) (searchQuery s) (merchantFilter s)
    v (loading s) (error s) (debouncedValue s) (mounted s)
    (timer s) (debouncedUpdates s) (requests s) (pending s).

Definition setLoading (v : bool) (s : State) : State :=
  mkState (perks s) (perksRef s) (searchQuery s) (merchantFilter s)
    (uniqueMerchants s) v (error s) (debouncedValue s) (mounted s)
    (timer s) (debouncedUpdates s) (requests s) (pending s).

Definition setError (v : jsstring) (s : State) : State :=
  mkState (perks s) (perksRef s) (searchQuery s) (merchantFilter s)
    (uniqueMerchants s) (loading s) v (debouncedValue s) (mounted s)
    (timer s) (debouncedUpdates s) (requests s) (pending s).

Definition setDebouncedValue (v : jsstring) (s : State) : State :=
  mkState (perks s) (perksRef s) (searchQuery s) (merchantFilter s)
    (uniqueMerchants s) (loading s) (error s) v (mounted s)
    (timer s) (debouncedUpdates s) (requests s) (pending s).

Definition withMounted (v : bool) (s : State) : State :=
  mkState (perks s) (perksRef s) (searchQuery s) (merchantFilter s)
    (uniqueMerchants s) (loading s) (error s) (debouncedValue s) v
    (timer s) (debouncedUpdates s) (requests s) (pending s).

Definition withTimer (v : option (N * jsstring)) (s : State) : State :=
  mkState (perks s) (perksRef s) (searchQuery s) (merchantFilter s)
    (uniqueMerchants s) (loading s) (error s) (debouncedValue s) (mounted s)
    v (debouncedUpdates s) (requests s) (pending s).

Definition countDebouncedUpdate (s : State) : State :=
  mkState (perks s) (perksRef s) (searchQuery s) (merchantFilter s)
    (uniqueMerchants s) (loading s) (error s) (debouncedValue s) (mounted s)
    (timer s) (S (debouncedUpdates s)) (requests s) (pending s).

Definition withPending (v : list nat) (s : State) : State :=
  mkState (perks s) (perksRef s) (searchQuery s) (merchantFilter s)
    (uniqueMerchants s) (loading s) (error s) (debouncedValue s) (mounted s)
    (timer s) (debouncedUpdates s) (requests s) v.

(** [api.get('/perks/all', { params })]: the call is logged and its
    promise is pending. *)
Definition api_get (p : Api.Params) (s : State) : State :=
  mkState (perks s) (perksRef s) (searchQuery s) (merchantFilter s)
    (uniqueMerchants s) (loading s) (error s) (debouncedValue s) (mounted s)
    (timer s) (debouncedUpdates s) (requests s ++ [p])
    (pending s ++ [List.length (requests s)]).

(** ** [loadAllPerks] *)

(** The part of [loadAllPerks] that runs before the [await]: both setters,
    then the call, whose parameters are the debounced search text and the
    merchant filter of the render the function belongs to. *)
Definition loadAllPerks (s : State) : State :=
  let s1 := setError empty s in
  let s2 := setLoading true s1 in
  api_get (Api.mkParams (orUndefined (trim (debouncedValue s2)))
                        (orUndefined (trim (merchantFilter s2)))) s2.

(** After the [await], the promise resolved with [res.data.perks]. *)
Definition loadAllPerks_resolved (ps : list Perk) (s : State) : State :=
  let s1 := setPerks ps s in
  setLoading false s1.

(** After the [await], the promise rejected with [err]: [catch], then
    [finally]. *)
Definition loadAllPerks_rejected (err : option Api.Err) (s : State) : State :=
  let s1 := setError (orElse (Api.errMessage err) fallbackMessage) s in
  setLoading false s1.

(** ** Effects *)

(** The effect of [useDebounce]: [setTimeout(() => setDebouncedValue(value), delay)]. *)
Definition useDebounce_effect (s : State) : State :=
  withTimer (Some (delay, searchQuery s)) s.

(** Its cleanup: [clearTimeout(handler)]. *)
Definition useDebounce_cleanup (s : State) : State :=
  withTimer None s.

(** Hook #2, with dependencies [debouncedSearchQuery] and [merchantFilter]. *)
Definition autoSearch_effect (s : State) : State := loadAllPerks s.

(** The merchant effect, with dependency [perks]. *)
Definition uniqueMerchants_effect (s : State) : State :=
  setUniqueMerchants (deriveUniqueMerchants (perks s)) s.

(** The effects of one commit, in the order the hooks are called: an
    effect runs when one of its dependencies differs from the previous
    commit [prev], after its cleanup. The setters the effects call leave
    every dependency as it is, so the render they cause runs no effect. *)
Definition commit (prev s : State) : State :=
  let s1 :=
    if eqb (searchQuery prev) (searchQuery s) then s
    else useDebounce_effect (useDebounce_cleanup s) in
  let s2 :=
    if eqb (debouncedValue prev) (debouncedValue s1)
       && eqb (merchantFilter prev) (merchantFilter s1) then s1
    else autoSearch_effect s1 in
  if Nat.eqb (perksRef prev) (perksRef s2) then s2
  else uniqueMerchants_effect s2.

(** The first render: the initial values of the [useState] calls. *)
Definition initial : State :=
  mkState [] 0 empty empty [] true empty empty true None 0 [] [].

(** Mounting runs every effect once, in the order of the hooks; the body
    of Hook #1 is empty. *)
Definition mount (s : State) : State :=
  uniqueMerchants_effect (autoSearch_effect (useDebounce_effect s)).

Definition mounted_page : State := mount initial.

(** Unmounting runs the cleanups. *)
Definition unmount (s : State) : State :=
  withMounted false (useDebounce_cleanup s).

(** ** Event handlers *)

Definition handleSearch (s : State) : State := loadAllPerks s.

Definition handleSearchQueryChange (v : jsstring) (s : State) : State :=
  setSearchQuery v s.

Definition handleMerchantFilterChange (v : jsstring) (s : State) : State :=
  setMerchantFilter v s.

Definition handleReset (s : State) : State :=
  let s1 := setSearchQuery empty s in
  let s2 := setMerchantFilter empty s1 in
  setError empty s2.

(** The callback the debounce effect hands to [setTimeout]. A setter of a
    component that is gone changes nothing. *)
Definition timeoutCallback (v : jsstring) (s : State) : State :=
  let s1 := countDebouncedUpdate s in
  if mounted s1 then commit s1 (setDebouncedValue v s1) else s1.

(** [ms] milliseconds pass: a timeout that is due fires, once. *)
Definition tick (ms : N) (s : State) : State :=
  match timer s with
  | Some (remaining, v) =>
      if (remaining <=? ms)%N then timeoutCallback v (withTimer None s)
      else withTimer (Some ((remaining - ms)%N, v)) s
  | None => s
  end.

(** The promise of request [i] settles and [loadAllPerks] resumes with
    [k]; a promise settles once. *)
Definition settle (i : nat) (k : State -> State) (s : State) : State :=
  if existsb (Nat.eqb i) (pending s) then
    let s1 := withPending (filter (fun j => negb (Nat.eqb i j)) (pending s)) s in
    if mounted s1 then commit s1 (k s1) else s1
  else s.

(** ** The page as a transition system *)

Inductive Event :=
| ChangeSearch (v : jsstring)        (* the search input's [onChange] *)
| ChangeMerchant (v : jsstring)      (* the merchant select's [onChange] *)
| Submit                             (* the form's [onSubmit]: Enter, Search Now *)
| ClickReset                         (* Reset Filters *)
| ClickTryAgain                      (* Try Again, shown while [error] is set *)
| Tick (ms : N)                      (* time passes *)
| Resolve (i : nat) (ps : list Perk) (* request [i] succeeds *)
| Reject (i : nat) (err : option Api.Err) (* request [i] fails *)
| Unmount.

Definition step (e : Event) (s : State) : State :=
  match e with
  | ChangeSearch v =>
      if mounted s then commit s (handleSearchQueryChange v s) else s
  | ChangeMerchant v =>
      if mounted s then commit s (handleMerchantFilterChange v s) else s
  | Submit =>
      if mounted s then commit s (handleSearch s) else s
  | ClickReset =>
      if mounted s then commit s (handleReset s) else s
  | ClickTryAgain =>
      if mounted s && truthy (error s) then commit s (loadAllPerks s) else s
  | Tick ms => tick ms s
  | Resolve i ps => settle i (loadAllPerks_resolved ps) s
  | Reject i err => settle i (loadAllPerks_rejected err) s
  | Unmount => if mounted s then unmount s else s
  end.

Definition run (es : list Event) (s : State) : State :=
  fold_left (fun s e => step e s) es s.

(** The requests that [s'] has issued since [s]. *)
Definition issuedSince (s s' : State) : list Api.Params :=
  skipn (List.length (requests s)) (requests s').




(** ** Notions the properties are stated with *)

(** Position of the first occurrence of [x] in [l]. *)
Fixpoint firstIndex (x : jsstring) (l : list jsstring) : option nat :=
  match l with
  | y :: l' =>
      if eqb x y then Some 0
      else match firstIndex x l' with
           | Some n => Some (S n)
           | None => None
           end
  | [] => None
  end.

(** [param] is what a request carries for the filter text [text]: nothing
    when the text trims to the empty string, the trimmed text otherwise. *)
Definition carries (text : jsstring) (param : option jsstring) : Prop :=
  (trim text = empty -> param = None) /\
  (trim text <> empty -> param = Some (trim text)).

(** The parameters of a fetch issued with debounced text [d] and merchant
    filter [m]. *)
Definition paramsFor (d m : jsstring) : Api.Params :=
  Api.mkParams (orUndefined (trim d)) (orUndefined (trim m)).

(** The merchant names of [ps], trimmed, the empty ones left out. *)
Definition trimmedMerchant (ps : list Perk) (x : jsstring) : Prop :=
  exists p m, In p ps /\ merchant p = Some m /\ x = trim m /\ x <> empty.

(** The merchant names of [ps] as they are stored, those that trim to the
    empty string left out. *)
Definition storedMerchant (ps : list Perk) (x : jsstring) : Prop :=
  exists p, In p ps /\ merchant p = Some x /\ trim x <> empty.

(** A submit in [s] issues one fetch, whose search parameter is the text
    in the search input. *)
Definition submitSendsTypedText (s : State) : Prop :=
  exists r, issuedSince s (step Submit s) = [r] /\
            Api.search r = orUndefined (trim (searchQuery s)).

(** Position in [ps] of the first perk whose [merchant] field is [m]. *)
Fixpoint firstPerkWith (m : jsstring) (ps : list Perk) : option nat :=
  match ps with
  | p :: ps' =>
      if match merchant p with Some x => eqb m x | None => false end
      then Some 0
      else match firstPerkWith m ps' with
           | Some n => Some (S n)
           | None => None
           end
  | [] => None
  end.

(** [u] lists its elements in the order of their first occurrence in [l]. *)
Definition inFirstOccurrenceOrder (l u : list jsstring) : Prop :=
  forall i j x y,
    nth_error u i = Some x -> nth_error u j = Some y -> i < j ->
    exists a b, firstIndex x l = Some a /\ firstIndex y l = Some b /\ a < b.

(** On a mounted page the pending timeout holds the typed text and is due
    within the delay, the debounced text is the typed one when no timeout
    is pending, and the last fetch issued carries the current debounced
    text and merchant filter. *)
Definition coherent (s : State) : Prop :=
  mounted s = true ->
  (forall r v, timer s = Some (r, v) -> v = searchQuery s /\ (r <= delay)%N) /\
  (timer s = None -> debouncedValue s = searchQuery s) /\
  (exists earlier,
     requests s
     = earlier ++ [paramsFor (debouncedValue s) (merchantFilter s)]).

(** ** What the page renders *)

(** The [value]s of the [<option>]s of the merchant select: the empty one
    of "All Merchants", then one per entry of [uniqueMerchants]. *)
Definition merchantOptions (s : State) : list jsstring :=
  empty :: uniqueMerchants s.

(** [{loading && (... Searching... ...)}] *)
Definition showsSearching (s : State) : bool := loading s.

(** [{error && (...)}]: the card with the message and the Try Again
    button. *)
Definition errorCard (s : State) : option jsstring :=
  if truthy (error s) then Some (error s) else None.

(** [{perks.length === 0 && !loading && (... No perks found. ...)}] *)
Definition showsNoPerksFound (s : State) : bool :=
  Nat.eqb (List.length (perks s)) 0 && negb (loading s).

(** [{loading && perks.length === 0 && (... Loading perks... ...)}] *)
Definition showsLoadingPerks (s : State) : bool :=
  loading s && Nat.eqb (List.length (perks s)) 0.

(** [{perk.merchant && (... {perk.merchant} ...)}]: the merchant row of a
    card. *)
Definition cardMerchant (p : Perk) : option jsstring :=
  match merchant p with
  | Some m => if truthy m then Some m else None
  | None => None
  end.

(** ** Invariants of the mounted page *)

(** While the page says it is loading, the request issued last is still
    in flight. *)
Definition loadingBacked (s : State) : Prop :=
  mounted s = true -> loading s = true ->
  In (pred (List.length (requests s))) (pending s) /\ requests s <> [].

(** An error message is only there while the page is not loading. *)
Definition errorQuiet (s : State) : Prop :=
  truthy (error s) = true -> loading s = false.

(** ** Facts about strings and sets *)

Lemma eqb_eq (a b : jsstring) : eqb a b = true <-> a = b.
Proof.
  revert b; induction a as [|x a IH]; intros [|y b]; simpl; split;
    try congruence; try reflexivity.
  - intros H. apply andb_true_iff in H as [Hx Hab].
    apply N.eqb_eq in Hx. apply IH in Hab. congruence.
  - intros H. injection H as -> ->. rewrite N.eqb_refl. simpl. now apply IH.
Qed.

Lemma eqb_refl (a : jsstring) : eqb a a = true.
Proof. now apply eqb_eq. Qed.

Lemma eqb_neq (a b : jsstring) : eqb a b = false <-> a <> b.
Proof.
  split.
  - intros H E. apply eqb_eq in E. congruence.
  - intros H. destruct (eqb a b) eqn:E; [apply eqb_eq in E; contradiction | reflexivity].
Qed.

Lemma existsb_eqb_In (x : jsstring) (l : list jsstring) :
  existsb (eqb x) l = true <-> In x l.
Proof.
  rewrite existsb_exists. split.
  - intros [y [Hy E]]. apply eqb_eq in E. now subst.
  - intros H. exists x. split; [assumption | apply eqb_refl].
Qed.

Lemma truthy_nonempty (s : jsstring) : truthy s = true <-> s <> empty.
Proof. destruct s; simpl; unfold empty; split; congruence. Qed.

Lemma trim_empty : trim empty = empty.
Proof. reflexivity. Qed.

Lemma orUndefined_carries (text : jsstring) :
  carries text (orUndefined (trim text)).
Proof.
  unfold carries, orUndefined. destruct (trim text) as [|c t] eqn:E; simpl.
  - split; [reflexivity | intros H; now contradiction H].
  - split; [unfold empty; congruence | reflexivity].
Qed.

Lemma firstIndex_In (x : jsstring) (l : list jsstring) :
  In x l -> exists n, firstIndex x l = Some n.
Proof.
  induction l as [|y l IH]; simpl; [contradiction|].
  intros H. destruct (eqb x y) eqn:E; [now exists 0|].
  destruct H as [H|H]; [subst; rewrite eqb_refl in E; discriminate|].
  destruct (IH H) as [n ->]. now exists (S n).
Qed.

Lemma firstIndex_cons_neq (x y : jsstring) (l : list jsstring) (n : nat) :
  x <> y -> firstIndex x l = Some n -> firstIndex x (y :: l) = Some (S n).
Proof.
  intros Hne H. simpl. apply eqb_neq in Hne. now rewrite Hne, H.
Qed.

(** What folding [Set_add] over [l] appends to the elements [acc] already
    in the set. *)
Lemma Set_fold_spec (l : list jsstring) :
  forall acc, exists t,
    fold_left Set_add l acc = acc ++ t /\
    NoDup t /\
    (forall x, In x t <-> In x l /\ ~ In x acc) /\
    inFirstOccurrenceOrder l t.
Proof.
  induction l as [|x0 l IH]; intros acc; simpl.
  - exists []. rewrite app_nil_r. split; [reflexivity|].
    split; [constructor|]. split.
    + intros x. simpl. tauto.
    + intros i j x y Hi. destruct i; discriminate.
  - unfold Set_add at 2. destruct (existsb (eqb x0) acc) eqn:E.
    + apply existsb_eqb_In in E.
      destruct (IH acc) as (t & Hf & Hnd & Hin & Hord).
      exists t. split; [assumption|]. split; [assumption|]. split.
      * intros x. rewrite Hin. split; [tauto|].
        intros [[->|Hx] Hn]; [contradiction | tauto].
      * intros i j x y Hi Hj Hlt.
        destruct (Hord i j x y Hi Hj Hlt) as (a & b & Ha & Hb & Hab).
        assert (Hx : x <> x0).
        { intros ->. apply nth_error_In in Hi. apply Hin in Hi. tauto. }
        assert (Hy : y <> x0).
        { intros ->. apply nth_error_In in Hj. apply Hin in Hj. tauto. }
        exists (S a), (S b). repeat split; try lia;
          now apply firstIndex_cons_neq.
    + assert (Hx0 : ~ In x0 acc).
      { intros H. apply existsb_eqb_In in H. congruence. }
      destruct (IH (acc ++ [x0])) as (t & Hf & Hnd & Hin & Hord).
      assert (Hnot : forall x, In x t -> x <> x0 /\ In x l /\ ~ In x acc).
      { intros x Hx. apply Hin in Hx as [Hl Hn]. repeat split; auto.
        - intros ->. apply Hn, in_or_app. right. now left.
        - intros Ha. apply Hn, in_or_app. now left. }
      exists (x0 :: t). rewrite Hf, <- app_assoc. simpl.
      split; [reflexivity|]. split; [|split].
      * constructor; [|assumption]. intros H. now apply Hnot in H as [H _].
      * intros x. split.
        -- intros [<-|H]; [split; [now left | assumption]|].
           apply Hnot in H. tauto.
        -- intros [[->|Hx] Hn]; [now left|].
           destruct (list_eq_dec N.eq_dec x0 x) as [->|Hne]; [now left|].
           right. apply Hin. split; [assumption|].
           intros Ha. apply in_app_or in Ha as [Ha|[Ha|[]]]; [tauto | congruence].
      * intros i j x y Hi Hj Hlt.
        destruct j as [|j]; [lia|]. simpl in Hj.
        assert (Hy : y <> x0 /\ In y l /\ ~ In y acc)
          by (apply Hnot; eapply nth_error_In; eassumption).
        destruct Hy as (Hy & Hyl & _).
        destruct i as [|i]; simpl in Hi.
        -- injection Hi as <-.
           destruct (firstIndex_In _ _ Hyl) as [b Hb].
           exists 0, (S b). simpl. rewrite eqb_refl. repeat split; try lia.
           now apply firstIndex_cons_neq.
        -- assert (Hx : x <> x0)
             by (apply Hnot; eapply nth_error_In; eassumption).
           destruct (Hord i j x y Hi Hj ltac:(lia)) as (a & b & Ha & Hb & Hab).
           exists (S a), (S b). repeat split; try lia;
             now apply firstIndex_cons_neq.
Qed.

Lemma Set_of_spec (l : list jsstring) :
  NoDup (Set_of l) /\
  (forall x, In x (Set_of l) <-> In x l) /\
  inFirstOccurrenceOrder l (Set_of l).
Proof.
  unfold Set_of. destruct (Set_fold_spec l []) as (t & -> & Hnd & Hin & Hord).
  simpl. repeat split; auto.
  - intros H. now apply Hin in H.
  - intros H. apply Hin. split; [assumption | intros []].
Qed.

Lemma someValues_In (x : jsstring) (l : list (option jsstring)) :
  In x (someValues l) <-> In (Some x) l.
Proof.
  induction l as [|[y|] l IH]; simpl; [tauto | |].
  - rewrite IH. split; intros [H|H]; auto; left; congruence.
  - rewrite IH. split; [auto | intros [H|H]; [discriminate | assumption]].
Qed.

Lemma merchantsOf_In (ps : list Perk) (x : jsstring) :
  In x (merchantsOf ps) <-> storedMerchant ps x.
Proof.
  unfold merchantsOf, storedMerchant.
  rewrite someValues_In, filter_In, in_map_iff. simpl. split.
  - intros [[p [Hm Hp]] Hk]. exists p. repeat split; auto.
    apply andb_true_iff in Hk as [_ Hk]. now apply truthy_nonempty.
  - intros [p (Hp & Hm & Ht)]. split; [now exists p|].
    apply andb_true_iff. split; apply truthy_nonempty; [|assumption].
    intros ->. now apply Ht.
Qed.

(** ** Facts about the transition system *)

Lemma perksRef_fresh (n : nat) : Nat.eqb n (S n) = false.
Proof. apply Nat.eqb_neq. lia. Qed.

Ltac page_cbv :=
  cbv beta iota zeta delta
    [step settle tick timeoutCallback commit mount unmount handleSearch
     handleSearchQueryChange handleMerchantFilterChange handleReset
     autoSearch_effect uniqueMerchants_effect useDebounce_effect
     useDebounce_cleanup loadAllPerks_resolved loadAllPerks_rejected
     loadAllPerks api_get setPerks setSearchQuery setMerchantFilter
     setUniqueMerchants setLoading setError setDebouncedValue withMounted
     withTimer withPending countDebouncedUpdate
     perks perksRef searchQuery merchantFilter uniqueMerchants loading error
     debouncedValue mounted timer debouncedUpdates requests pending] in *.

Ltac split_if :=
  match goal with
  | |- context [if ?b then _ else _] =>
      lazymatch b with
      | context [if _ then _ else _] => fail
      | context [match _ with Some _ => _ | None => _ end] => fail
      | _ => destruct b eqn:?
      end
  | |- context [match ?b with Some _ => _ | None => _ end] =>
      lazymatch b with
      | context [if _ then _ else _] => fail
      | _ => destruct b as [[? ?]|] eqn:?
      end
  end.

(** Runs through the comparisons of a dependency with itself. *)
Ltac page_simpl :=
  page_cbv; cbn [andb negb];
  repeat (progress (rewrite ?eqb_refl, ?Nat.eqb_refl, ?perksRef_fresh);
          page_cbv; cbn [andb negb]).

(** Runs the page on a state given by its fields, one case per branch. *)
Ltac page_cases :=
  page_simpl; repeat (split_if; page_simpl).

(** The merchant list is derived from the perks after every transition. *)
Lemma step_uniqueMerchants (e : Event) (s : State) :
  uniqueMerchants s = deriveUniqueMerchants (perks s) ->
  uniqueMerchants (step e s) = deriveUniqueMerchants (perks (step e s)).
Proof.
  destruct s; cbn. intros Inv.
  destruct e; page_cases; auto.
Qed.

Lemma run_cons (e : Event) (es : list Event) (s : State) :
  run (e :: es) s = run es (step e s).
Proof. reflexivity. Qed.


Lemma run_uniqueMerchants (es : list Event) :
  forall s, uniqueMerchants s = deriveUniqueMerchants (perks s) ->
            uniqueMerchants (run es s) = deriveUniqueMerchants (perks (run es s)).
Proof.
  induction es as [|e es IH]; intros s Inv; [exact Inv|].
  rewrite run_cons. now apply IH, step_uniqueMerchants.
Qed.

Lemma issuedSince_app (s s' : State) (issued : list Api.Params) :
  requests s' = requests s ++ issued -> issuedSince s s' = issued.
Proof.
  unfold issuedSince. intros ->. rewrite skipn_app, skipn_all, Nat.sub_diag.
  reflexivity.
Qed.

(** ** The page on mount *)

(** C10. The first render has [loading = true], [perks = []] and
    [error = ''], and mounting leaves them so; mounting issues one fetch,
    from the first run of the auto-search effect, with neither [search] nor
    [merchant]; the debounce timeout armed on mount issues no second one
    when it fires. *)
Theorem mount_issues_one_unfiltered_fetch :
  loading initial = true /\ perks initial = [] /\ error initial = empty /\
  loading mounted_page = true /\ perks mounted_page = [] /\
  error mounted_page = empty /\
  requests (useDebounce_effect initial) = [] /\
  issuedSince initial (autoSearch_effect initial) = [Api.mkParams None None] /\
  requests mounted_page = [Api.mkParams None None] /\
  forall ms, requests (step (Tick ms) mounted_page) = [Api.mkParams None None].
Proof.
  repeat (split; [reflexivity|]).
  intros ms. unfold mounted_page, initial. page_cbv.
  destruct (delay <=? ms)%N; reflexivity.
Qed.

(** ** The derived merchant list *)

(** C2, as stated, fails: after a response whose only perk has the
    merchant [" Acme"], [uniqueMerchants] holds [" Acme"] itself, which is
    not the trimmed name. *)
Lemma uniqueMerchants_keeps_untrimmed_names :
  let s := run [Resolve 0 [mkPerk (lit "p1") (lit "Tea") (lit "food")
                                  (Some (lit " Acme"))]] mounted_page in
  uniqueMerchants s = [lit " Acme"] /\
  ~ (forall x, In x (uniqueMerchants s) <-> trimmedMerchant (perks s) x).
Proof.
  cbv zeta. split; [reflexivity|].
  intros H. destruct (H (lit " Acme")) as [Hin _].
  destruct Hin as (p & m & Hp & Hm & Hx & _); [now left|].
  destruct Hp as [<-|[]]. injection Hm as <-. discriminate Hx.
Qed.

(** C2, amended. In every state the page reaches, [uniqueMerchants] is the
    list derived from the current [perks]: it has no duplicates and holds
    exactly the merchant names of [perks], as stored, whose trimmed form
    is not empty. *)
Theorem uniqueMerchants_is_derived_from_perks (es : list Event) :
  let s := run es mounted_page in
  uniqueMerchants s = deriveUniqueMerchants (perks s) /\
  NoDup (uniqueMerchants s) /\
  (forall x, In x (uniqueMerchants s) <-> storedMerchant (perks s) x).
Proof.
  cbv zeta.
  assert (E : uniqueMerchants (run es mounted_page)
              = deriveUniqueMerchants (perks (run es mounted_page)))
    by (apply run_uniqueMerchants; reflexivity).
  rewrite E. unfold deriveUniqueMerchants.
  destruct (Set_of_spec (merchantsOf (perks (run es mounted_page))))
    as (Hnd & Hin & _).
  repeat split; auto.
  - intros H. now apply merchantsOf_In, Hin.
  - intros H. now apply Hin, merchantsOf_In.
Qed.

Lemma merchantsOf_cons (p : Perk) (ps : list Perk) :
  merchantsOf (p :: ps)
  = match merchant p with
    | Some m => if keepMerchant (Some m) then m :: merchantsOf ps
                else merchantsOf ps
    | None => merchantsOf ps
    end.
Proof.
  unfold merchantsOf. simpl. destruct (merchant p) as [m|]; simpl;
    [destruct (truthy m && truthy (trim m)); reflexivity | reflexivity].
Qed.

Lemma merchantsOf_kept (x : jsstring) (ps : list Perk) :
  In x (merchantsOf ps) -> keepMerchant (Some x) = true.
Proof.
  intros H. apply merchantsOf_In in H as (p & _ & _ & Ht). simpl.
  apply andb_true_iff. split; apply truthy_nonempty; [|exact Ht].
  intros ->. now apply Ht.
Qed.

Lemma firstIndex_Some_In (x : jsstring) (l : list jsstring) (n : nat) :
  firstIndex x l = Some n -> In x l.
Proof.
  revert n. induction l as [|y l IH]; intros n; simpl; [discriminate|].
  destruct (eqb x y) eqn:E.
  - intros _. left. symmetry. now apply eqb_eq.
  - destruct (firstIndex x l) as [k|]; [|discriminate].
    intros _. right. now apply (IH k).
Qed.

Lemma firstPerkWith_exists (x : jsstring) (ps : list Perk) :
  (exists p, In p ps /\ merchant p = Some x) ->
  exists n, firstPerkWith x ps = Some n.
Proof.
  induction ps as [|q ps IH]; intros (p & Hp & Hm); [destruct Hp|].
  simpl. destruct (merchant q) as [z|] eqn:Eq.
  - destruct (eqb x z) eqn:E; [now exists 0|].
    destruct Hp as [->|Hp].
    + rewrite Hm in Eq. injection Eq as <-. rewrite eqb_refl in E.
      discriminate E.
    + destruct IH as [n ->]; [now exists p|]. now exists (S n).
  - destruct Hp as [->|Hp]; [rewrite Hm in Eq; discriminate Eq|].
    destruct IH as [n ->]; [now exists p|]. now exists (S n).
Qed.

(** The kept merchants come in the order of the perks they are read
    from. *)
Lemma merchantsOf_order (ps : list Perk) :
  forall x y a b,
    firstIndex x (merchantsOf ps) = Some a ->
    firstIndex y (merchantsOf ps) = Some b -> a < b ->
    exists a' b', firstPerkWith x ps = Some a' /\
                  firstPerkWith y ps = Some b' /\ a' < b'.
Proof.
  induction ps as [|p ps IH]; intros x y a b Ha Hb Hab; [discriminate Ha|].
  rewrite merchantsOf_cons in Ha, Hb.
  assert (Hskip : forall z n, firstIndex z (merchantsOf ps) = Some n ->
            forall m, merchant p = Some m -> keepMerchant (Some m) = false ->
            eqb z m = false).
  { intros z n Hz m _ Hk. apply eqb_neq. intros ->.
    apply firstIndex_Some_In, merchantsOf_kept in Hz. congruence. }
  simpl firstPerkWith. destruct (merchant p) as [m|] eqn:Em.
  - destruct (keepMerchant (Some m)) eqn:Ek.
    + simpl in Ha, Hb. destruct (eqb x m) eqn:Ex.
      * injection Ha as <-. destruct (eqb y m) eqn:Ey.
        { injection Hb as <-. lia. }
        destruct (firstIndex y (merchantsOf ps)) as [b0|] eqn:Eb;
          [|discriminate Hb].
        destruct (firstPerkWith_exists y ps) as [b' ->].
        { apply firstIndex_Some_In, merchantsOf_In in Eb
            as (q & Hq & Hmq & _). now exists q. }
        exists 0, (S b'). repeat split. lia.
      * destruct (firstIndex x (merchantsOf ps)) as [a0|] eqn:Ea;
          [|discriminate Ha].
        injection Ha as <-. destruct (eqb y m) eqn:Ey.
        { injection Hb as <-. lia. }
        destruct (firstIndex y (merchantsOf ps)) as [b0|] eqn:Eb;
          [|discriminate Hb].
        injection Hb as <-.
        destruct (IH x y a0 b0 Ea Eb ltac:(lia)) as (a' & b' & -> & -> & Hlt).
        exists (S a'), (S b'). repeat split. lia.
    + rewrite (Hskip x a Ha m eq_refl Ek), (Hskip y b Hb m eq_refl Ek).
      destruct (IH x y a b Ha Hb Hab) as (a' & b' & -> & -> & Hlt).
      exists (S a'), (S b'). repeat split. lia.
  - destruct (IH x y a b Ha Hb Hab) as (a' & b' & -> & -> & Hlt).
    exists (S a'), (S b'). repeat split. lia.
Qed.

(** C9. The derived list holds once each the merchant names of [perks]
    that are kept (those whose trimmed form is not empty), in the order
    in which they first occur in [perks]: of two entries, the earlier one
    is the merchant of a perk that comes before every perk with the
    later one. *)
Theorem uniqueMerchants_in_first_occurrence_order (ps : list Perk) :
  NoDup (deriveUniqueMerchants ps) /\
  (forall x, In x (deriveUniqueMerchants ps) <-> In x (merchantsOf ps)) /\
  inFirstOccurrenceOrder (merchantsOf ps) (deriveUniqueMerchants ps) /\
  (forall x, In x (deriveUniqueMerchants ps) <-> storedMerchant ps x) /\
  (forall i j x y,
     nth_error (deriveUniqueMerchants ps) i = Some x ->
     nth_error (deriveUniqueMerchants ps) j = Some y -> i < j ->
     exists a b, firstPerkWith x ps = Some a /\
                 firstPerkWith y ps = Some b /\ a < b).
Proof.
  unfold deriveUniqueMerchants.
  destruct (Set_of_spec (merchantsOf ps)) as (Hnd & Hin & Hord).
  split; [exact Hnd|]. split; [exact Hin|]. split; [exact Hord|]. split.
  - intros x. rewrite Hin. apply merchantsOf_In.
  - intros i j x y Hi Hj Hij.
    destruct (Hord i j x y Hi Hj Hij) as (a & b & Ha & Hb & Hab).
    exact (merchantsOf_order ps x y a b Ha Hb Hab).
Qed.

(** ** Fetches *)

Lemma existsb_eqb_nat_In (i : nat) (l : list nat) :
  existsb (Nat.eqb i) l = true <-> In i l.
Proof.
  rewrite existsb_exists. split.
  - intros [j [Hj E]]. apply Nat.eqb_eq in E. now subst.
  - intros H. exists i. split; [assumption | apply Nat.eqb_refl].
Qed.

Lemma orElse_nonempty (m : option jsstring) (fallback : jsstring) :
  fallback <> empty -> orElse m fallback <> empty.
Proof.
  intros Hf. destruct m as [[|c t]|]; simpl; auto. discriminate.
Qed.

Lemma fallbackMessage_nonempty : fallbackMessage <> empty.
Proof. discriminate. Qed.

(** Every transition issues at most one fetch, with the parameters of the
    debounced text and merchant filter it leaves in the state. *)
Lemma step_issues (e : Event) (s : State) :
  requests (step e s) = requests s \/
  requests (step e s)
  = requests s ++ [paramsFor (debouncedValue (step e s))
                             (merchantFilter (step e s))].
Proof.
  unfold paramsFor. destruct s, e; page_cases; auto.
Qed.

Lemma orUndefined_not_empty (t : jsstring) : orUndefined t <> Some empty.
Proof. destruct t; simpl; discriminate. Qed.

(** No request of a run carries an empty string for a parameter. *)
Lemma run_requests_omit_empty (es : list Event) :
  forall s,
    Forall (fun r => Api.search r <> Some empty /\
                     Api.merchant r <> Some empty) (requests s) ->
    Forall (fun r => Api.search r <> Some empty /\
                     Api.merchant r <> Some empty) (requests (run es s)).
Proof.
  induction es as [|e es IH]; intros s Hs; [exact Hs|].
  rewrite run_cons. apply IH.
  destruct (step_issues e s) as [-> | ->]; [exact Hs|].
  apply Forall_app. split; [exact Hs|].
  constructor; [|constructor]. split; apply orUndefined_not_empty.
Qed.

(** C4. Whatever a transition of the page issues, and what mounting
    issues, is a fetch whose [search] parameter is absent when the
    debounced search text trims to the empty string and is the trimmed
    text otherwise, and likewise [merchant] for the merchant filter; no
    request the page ever makes carries an empty string for either. *)
Theorem fetch_omits_blank_filters (e : Event) (s : State) (es : list Event) :
  (exists issued,
     requests (step e s) = requests s ++ issued /\
     Forall (fun r =>
               carries (debouncedValue (step e s)) (Api.search r) /\
               carries (merchantFilter (step e s)) (Api.merchant r)) issued) /\
  (exists r, requests mounted_page = [r] /\
             carries (debouncedValue mounted_page) (Api.search r) /\
             carries (merchantFilter mounted_page) (Api.merchant r)) /\
  Forall (fun r => Api.search r <> Some empty /\ Api.merchant r <> Some empty)
         (requests (run es mounted_page)).
Proof.
  split; [|split].
  - destruct (step_issues e s) as [H|H].
    + exists []. rewrite app_nil_r. split; [assumption | constructor].
    + eexists. split; [exact H|]. constructor; [|constructor].
      unfold paramsFor. simpl. split; apply orUndefined_carries.
  - eexists. split; [reflexivity|]. split; apply orUndefined_carries.
  - apply run_requests_omit_empty. constructor; [|constructor].
    split; discriminate.
Qed.

(** C1, as stated, fails: with "coffee" typed and not yet debounced, a
    submit issues a fetch that carries no [search] parameter. *)
Lemma submit_ignores_text_not_yet_debounced :
  let s := run [ChangeSearch (lit "coffee")] mounted_page in
  searchQuery s = lit "coffee" /\
  issuedSince s (step Submit s) = [Api.mkParams None None] /\
  ~ submitSendsTypedText s.
Proof.
  cbv zeta. split; [reflexivity|]. split; [reflexivity|].
  intros (r & Hr & Hs). vm_compute in Hr. injection Hr as <-.
  vm_compute in Hs. discriminate Hs.
Qed.

(** C1, amended. A submit issues one fetch in the same transition, no
    time passing; the fetch carries the debounced search text, trimmed and
    left out when empty, and the submit leaves the debounced text and the
    pending timeout as they are. What is sent is what the typed text
    would send exactly when the debounced and the typed text trim to the
    same string, as they do when the debounced text is the typed one. *)
Theorem submit_fetches_with_debounced_text (s : State) :
  mounted s = true ->
  issuedSince s (step Submit s)
  = [paramsFor (debouncedValue s) (merchantFilter s)] /\
  debouncedValue (step Submit s) = debouncedValue s /\
  timer (step Submit s) = timer s /\
  (debouncedValue s = searchQuery s -> submitSendsTypedText s) /\
  (submitSendsTypedText s <->
   orUndefined (trim (debouncedValue s))
   = orUndefined (trim (searchQuery s))).
Proof.
  intros Hm.
  assert (Hreq : requests (step Submit s)
                 = requests s ++ [paramsFor (debouncedValue s) (merchantFilter s)]).
  { destruct s. cbn in Hm. subst. unfold paramsFor. page_cases. reflexivity. }
  assert (Hiss := @issuedSince_app _ _ _ Hreq).
  assert (Hiff : submitSendsTypedText s <->
                 orUndefined (trim (debouncedValue s))
                 = orUndefined (trim (searchQuery s))).
  { unfold submitSendsTypedText. rewrite Hiss. split.
    - intros (r & Hr & Hs). injection Hr as <-. exact Hs.
    - intros E. eexists. split; [reflexivity | exact E]. }
  split; [assumption|]. split; [|split; [|split]].
  - destruct s. cbn in Hm. subst. page_cases. reflexivity.
  - destruct s. cbn in Hm. subst. page_cases. reflexivity.
  - intros E. apply Hiff. now rewrite E.
  - exact Hiff.
Qed.

Lemma submit_fetches_with_debounced_text_witness :
  let s := run [ChangeSearch (lit "a"); Tick 500; ChangeSearch (lit "a ")]
               mounted_page in
  mounted s = true /\
  debouncedValue s = lit "a" /\ searchQuery s = lit "a " /\
  issuedSince s (step Submit s) = [Api.mkParams (Some (lit "a")) None] /\
  timer (step Submit s) = Some (delay, lit "a ") /\
  submitSendsTypedText s.
Proof.
  cbv zeta.
  destruct (submit_fetches_with_debounced_text
              (run [ChangeSearch (lit "a"); Tick 500; ChangeSearch (lit "a ")]
                   mounted_page) eq_refl) as (H1 & _ & H3 & _ & H5).
  split; [reflexivity|]. split; [reflexivity|]. split; [reflexivity|].
  split; [exact H1|]. split; [exact H3|]. apply H5. reflexivity.
Defined.

(** ** Settled requests *)

(** A rejected request of a mounted page resumes [loadAllPerks] in its
    [catch]; no effect runs after it. *)
Lemma step_Reject (i : nat) (err : option Api.Err) (s : State) :
  mounted s = true -> In i (pending s) ->
  step (Reject i err) s
  = loadAllPerks_rejected err
      (withPending (filter (fun j => negb (Nat.eqb i j)) (pending s)) s).
Proof.
  intros Hm Hi. apply existsb_eqb_nat_In in Hi.
  destruct s. cbn in Hm, Hi. subst. page_cbv. rewrite Hi.
  rewrite !eqb_refl, Nat.eqb_refl. reflexivity.
Qed.

(** A resolved request of a mounted page resumes [loadAllPerks] after the
    [await]; the new array in [perks] makes the merchant effect run. *)
Lemma step_Resolve (i : nat) (ps : list Perk) (s : State) :
  mounted s = true -> In i (pending s) ->
  step (Resolve i ps) s
  = uniqueMerchants_effect
      (loadAllPerks_resolved ps
         (withPending (filter (fun j => negb (Nat.eqb i j)) (pending s)) s)).
Proof.
  intros Hm Hi. apply existsb_eqb_nat_In in Hi.
  destruct s. cbn in Hm, Hi. subst. page_cbv. rewrite Hi.
  rewrite !eqb_refl, perksRef_fresh. reflexivity.
Qed.

(** No transition but its own settling takes a request out of flight. *)
Lemma step_keeps_pending (i : nat) (e : Event) (s : State) :
  (forall ps, e <> Resolve i ps) -> (forall err, e <> Reject i err) ->
  In i (pending s) -> In i (pending (step e s)).
Proof.
  intros Hres Hrej Hi.
  assert (Hfilter : forall j, j <> i ->
            In i (filter (fun k => negb (Nat.eqb j k)) (pending s))).
  { intros j Hj. apply filter_In. split; [assumption|].
    apply negb_true_iff, Nat.eqb_neq. exact Hj. }
  destruct s, e; cbn in Hi, Hfilter; page_cases;
    try assumption; try (apply in_or_app; now left).
  - apply Hfilter. intros ->. now apply (Hres ps).
  - apply Hfilter. intros ->. now apply (Hres ps).
  - apply Hfilter. intros ->. now apply (Hrej err).
  - apply Hfilter. intros ->. now apply (Hrej err).
Qed.

(** C3. When a request of the mounted page is rejected, [perks] is what it
    was, [loading] is false and [error] is not empty: it is the message of
    the error response when there is a non-empty one, and the fallback
    "Failed to load perks" otherwise, that is when the error, its
    response, the data of the response or the message is missing, or the
    message is the empty string. Issuing the request left [perks] as it
    was too. *)
Theorem rejected_fetch_keeps_perks_and_sets_error
    (s : State) (i : nat) (err : option Api.Err) :
  mounted s = true -> In i (pending s) ->
  let s' := step (Reject i err) s in
  let failed := fun e => error (step (Reject i e) s) in
  let withData := fun d =>
    Some (Api.mkErr (Some (Api.mkErrResponse d))) in
  perks s' = perks s /\
  loading s' = false /\
  error s' <> empty /\
  (forall m, Api.errMessage err = Some m -> m <> empty -> error s' = m) /\
  (Api.errMessage err = None \/ Api.errMessage err = Some empty ->
   error s' = fallbackMessage) /\
  perks (loadAllPerks s) = perks s /\
  (forall m, m <> empty ->
             failed (withData (Some (Api.mkErrData (Some m)))) = m) /\
  failed (withData (Some (Api.mkErrData (Some empty)))) = fallbackMessage /\
  failed (withData (Some (Api.mkErrData None))) = fallbackMessage /\
  failed (withData None) = fallbackMessage /\
  failed (Some (Api.mkErr None)) = fallbackMessage /\
  failed None = fallbackMessage.
Proof.
  intros Hm Hi. cbv zeta.
  assert (Herr : forall e,
            error (step (Reject i e) s)
            = orElse (Api.errMessage e) fallbackMessage).
  { intros e. now rewrite (step_Reject i e s Hm Hi). }
  rewrite !Herr. rewrite (step_Reject i err s Hm Hi).
  split; [reflexivity|]. split; [reflexivity|]. split; [|split; [|split]].
  - apply orElse_nonempty, fallbackMessage_nonempty.
  - intros m -> Hne. destruct m; [now contradiction Hne | reflexivity].
  - intros [-> | ->]; reflexivity.
  - split; [reflexivity|]. split; [|repeat split].
    intros m Hne. rewrite Herr.
    destruct m; [now contradiction Hne | reflexivity].
Qed.

Lemma rejected_fetch_keeps_perks_and_sets_error_witness :
  let s := run [Resolve 0 [mkPerk (lit "p1") (lit "Tea") (lit "food") None];
                Submit] mounted_page in
  let err := Some (Api.mkErr (Some (Api.mkErrResponse
               (Some (Api.mkErrData (Some (lit "Down"))))))) in
  let s' := step (Reject 1 err) s in
  mounted s = true /\ In 1 (pending s) /\
  perks s' = perks s /\ perks s <> [] /\
  loading s = true /\ loading s' = false /\
  error s' = lit "Down".
Proof.
  cbv zeta.
  destruct (rejected_fetch_keeps_perks_and_sets_error
              (run [Resolve 0 [mkPerk (lit "p1") (lit "Tea") (lit "food") None];
                    Submit] mounted_page)
              1
              (Some (Api.mkErr (Some (Api.mkErrResponse
                 (Some (Api.mkErrData (Some (lit "Down"))))))))
              eq_refl (or_introl eq_refl))
    as (H1 & H2 & _ & H4 & _).
  split; [reflexivity|]. split; [simpl; now left|].
  split; [exact H1|]. split; [discriminate|]. split; [reflexivity|].
  split; [exact H2|]. apply H4; [reflexivity | discriminate].
Defined.

(** C8. Of two requests in flight on the mounted page, the one that
    resolves last leaves its list in [perks], whichever was issued first;
    and nothing takes a request out of flight before it settles, a newer
    fetch least of all. *)
Theorem last_resolved_response_wins
    (s : State) (i j : nat) (psi psj : list Perk) :
  mounted s = true -> In i (pending s) -> In j (pending s) -> i <> j ->
  perks (run [Resolve j psj; Resolve i psi] s) = psi /\
  perks (run [Resolve i psi; Resolve j psj] s) = psj /\
  In i (pending (loadAllPerks s)) /\
  (forall e, (forall ps, e <> Resolve i ps) -> (forall err, e <> Reject i err) ->
             In i (pending (step e s))).
Proof.
  intros Hm Hi Hj Hij.
  assert (Hlast : forall a b pa pb, In a (pending s) -> In b (pending s) ->
            a <> b -> perks (run [Resolve a pa; Resolve b pb] s) = pb).
  { intros a b pa pb Ha Hb Hab. rewrite !run_cons.
    rewrite (step_Resolve a pa s Hm Ha). rewrite step_Resolve.
    - reflexivity.
    - exact Hm.
    - simpl. apply filter_In. split; [assumption|].
      apply negb_true_iff, Nat.eqb_neq. exact Hab. }
  split; [apply Hlast; auto|]. split; [apply Hlast; auto|]. split.
  - simpl. apply in_or_app. now left.
  - intros e Hres Hrej. now apply step_keeps_pending.
Qed.

Lemma last_resolved_response_wins_witness :
  let s := step Submit mounted_page in
  let old := [mkPerk (lit "p1") (lit "Tea") (lit "food") None] in
  let new := [mkPerk (lit "p2") (lit "Bus") (lit "travel") (Some (lit "Acme"))] in
  perks (run [Resolve 1 new; Resolve 0 old] s) = old /\
  perks (run [Resolve 0 old; Resolve 1 new] s) = new /\
  In 0 (pending (loadAllPerks s)) /\
  (forall e, (forall ps, e <> Resolve 0 ps) -> (forall err, e <> Reject 0 err) ->
             In 0 (pending (step e s))).
Proof.
  cbv zeta. apply (last_resolved_response_wins (step Submit mounted_page)).
  - reflexivity.
  - simpl. now left.
  - simpl. right. now left.
  - discriminate.
Defined.

(** ** Debouncing *)



(** With no timeout pending, time changes nothing. *)
Lemma step_Tick_idle (ms : N) (s : State) :
  timer s = None -> step (Tick ms) s = s.
Proof. intros Ht. simpl. unfold tick. now rewrite Ht. Qed.

(** Once it is due, the timeout fires: its callback runs once, sets the
    debounced text, and the auto-search effect fetches when that text is
    new. *)
Lemma step_Tick_due (ms remaining : N) (v : jsstring) (s : State) :
  mounted s = true -> timer s = Some (remaining, v) -> (remaining <= ms)%N ->
  let s' := step (Tick ms) s in
  timer s' = None /\
  debouncedUpdates s' = S (debouncedUpdates s) /\
  debouncedValue s' = v /\
  requests s'
  = requests s ++ (if eqb (debouncedValue s) v then []
                   else [paramsFor v (merchantFilter s)]).
Proof.
  intros Hm Ht Hle. apply N.leb_le in Hle. unfold paramsFor.
  destruct s. cbn in Hm, Ht. subst. page_cbv. rewrite Hle. page_simpl.
  destruct (eqb debouncedValue0 v); page_simpl;
    rewrite ?app_nil_r; repeat split; reflexivity.
Qed.






(** Once the page is unmounted with no timeout pending, it stays so and
    the debounced text is never set again. *)
Lemma step_after_unmount (e : Event) (s : State) :
  mounted s = false -> timer s = None ->
  mounted (step e s) = false /\ timer (step e s) = None /\
  debouncedUpdates (step e s) = debouncedUpdates s /\
  debouncedValue (step e s) = debouncedValue s.
Proof.
  intros Hm Ht. destruct s. cbn in Hm, Ht. subst.
  destruct e; page_cases; repeat split.
Qed.

Lemma run_after_unmount (es : list Event) :
  forall s, mounted s = false -> timer s = None ->
  debouncedUpdates (run es s) = debouncedUpdates s /\
  debouncedValue (run es s) = debouncedValue s.
Proof.
  induction es as [|e es IH]; intros s Hm Ht; [now split|].
  rewrite run_cons.
  destruct (step_after_unmount e s Hm Ht) as (H1 & H2 & H3 & H4).
  destruct (IH (step e s) H1 H2) as [H5 H6]. split; congruence.
Qed.

(** C7. Unmounting a page whose debounce timeout is pending clears the
    timeout: whatever happens afterwards, however much time passes, the
    timeout callback never runs and the debounced text stays as it was.
    Left mounted, the same page would have run the callback when the
    timeout came due. *)
Theorem unmount_cancels_pending_debounce
    (s : State) (remaining : N) (v : jsstring) (es : list Event) :
  mounted s = true -> timer s = Some (remaining, v) ->
  timer (step Unmount s) = None /\
  debouncedUpdates (run (Unmount :: es) s) = debouncedUpdates s /\
  debouncedValue (run (Unmount :: es) s) = debouncedValue s /\
  debouncedUpdates (step (Tick remaining) s) = S (debouncedUpdates s).
Proof.
  intros Hm Ht.
  assert (U : step Unmount s = unmount s) by (simpl; now rewrite Hm).
  split; [now rewrite U|]. rewrite run_cons, U.
  destruct (run_after_unmount es (unmount s)) as [H1 H2];
    [reflexivity | reflexivity |].
  split; [exact H1|]. split; [exact H2|].
  apply (step_Tick_due remaining remaining v s Hm Ht). apply N.le_refl.
Qed.

Lemma unmount_cancels_pending_debounce_witness :
  let s := step (ChangeSearch (lit "coffee")) mounted_page in
  let es := [Tick 200; Tick 300; Tick 1000] in
  mounted s = true /\ timer s = Some (delay, lit "coffee") /\
  timer (step Unmount s) = None /\
  debouncedUpdates (run (Unmount :: es) s) = debouncedUpdates s /\
  debouncedValue (run (Unmount :: es) s) = debouncedValue s /\
  debouncedUpdates (step (Tick delay) s) = S (debouncedUpdates s).
Proof.
  cbv zeta. split; [reflexivity|]. split; [reflexivity|].
  apply (unmount_cancels_pending_debounce
           (step (ChangeSearch (lit "coffee")) mounted_page)
           delay (lit "coffee") [Tick 200; Tick 300; Tick 1000]);
    reflexivity.
Defined.

(** ** Reset *)

(** Reset empties both filters and the error message. *)
Lemma step_ClickReset_clears (s : State) :
  mounted s = true ->
  searchQuery (step ClickReset s) = empty /\
  merchantFilter (step ClickReset s) = empty /\
  error (step ClickReset s) = empty.
Proof.
  intros Hm. destruct s. cbn in Hm. subst. page_cases; repeat split.
Qed.

(** While the pending timeout, if any, holds the text that is already the
    debounced one, time passing fetches nothing. *)
Lemma step_Tick_settled (ms : N) (s : State) :
  (forall r v, timer s = Some (r, v) -> v = debouncedValue s) ->
  requests (step (Tick ms) s) = requests s /\
  debouncedValue (step (Tick ms) s) = debouncedValue s /\
  (forall r v, timer (step (Tick ms) s) = Some (r, v) ->
               v = debouncedValue (step (Tick ms) s)).
Proof.
  intros Ht. destruct s. cbn in Ht.
  destruct timer0 as [[r v]|].
  - rewrite (Ht r v eq_refl). page_cases; repeat split;
      intros r' v' E; try discriminate E; now injection E as _ <-.
  - page_cases. repeat split. intros r' v' E. discriminate E.
Qed.

Lemma run_Ticks_settled (waits : list N) :
  forall s, (forall r v, timer s = Some (r, v) -> v = debouncedValue s) ->
            requests (run (map Tick waits) s) = requests s.
Proof.
  induction waits as [|ms waits IH]; intros s Ht; [reflexivity|].
  simpl map. rewrite run_cons.
  destruct (step_Tick_settled ms s Ht) as (H1 & _ & H3).
  now rewrite (IH _ H3).
Qed.

(** C5 on the input where it fails: the first fetch was rejected and both
    filters are empty. Reset clears the error message, and no fetch
    follows, neither at once nor after any wait. *)
Theorem reset_with_empty_filters_issues_no_fetch :
  let s := run [Reject 0 None] mounted_page in
  let s' := step ClickReset s in
  error s = fallbackMessage /\
  searchQuery s' = empty /\ merchantFilter s' = empty /\ error s' = empty /\
  perks s' = [] /\ loading s' = false /\
  forall waits, issuedSince s (run (ClickReset :: map Tick waits) s) = [].
Proof.
  cbv zeta. repeat (split; [reflexivity|]).
  intros waits. apply issuedSince_app. rewrite app_nil_r, run_cons.
  rewrite run_Ticks_settled; [reflexivity|].
  intros r v E. vm_compute in E. now injection E as _ <-.
Qed.

Ltac eqb_hyps :=
  repeat match goal with
    | H : (_ && true) = _ |- _ => rewrite andb_true_r in H
    | H : (_ && _) = true |- _ => apply andb_true_iff in H as [? ?]
    | H : eqb _ _ = true |- _ => apply eqb_eq in H
    | H : (_ <=? _)%N = true |- _ => apply N.leb_le in H
    | H : (_ <=? _)%N = false |- _ => apply N.leb_gt in H
    end.

(** The page stays coherent. *)
Lemma step_coherent (e : Event) (s : State) :
  coherent s -> coherent (step e s).
Proof.
  unfold coherent, paramsFor. destruct s as [? ? ? ? ? ? ? ? [|] ? ? ? ?];
    cbn [mounted timer searchQuery debouncedValue merchantFilter requests].
  - intros Inv. destruct (Inv eq_refl) as (I1 & I2 & earlier & I3). clear Inv.
    destruct e; page_cases; intros Hm; try discriminate Hm; eqb_hyps;
      unfold empty in *; subst;
      (split; [|split]);
      try (eexists; reflexivity);
      try (intros E; try discriminate E; auto; fail);
      try (intros r' v' E; try discriminate E; auto; fail).
    all: try (intros r' v' E; injection E as <- <-;
              split; [reflexivity | apply N.le_refl]).
    all: try (intros _; now apply (I1 _ _ eq_refl)).
    intros r' v' E. injection E as <- <-.
    destruct (I1 _ _ eq_refl) as [-> Hle]. split; [reflexivity | lia].
  - intros _. destruct e; page_cases; intros Hm; discriminate Hm.
Qed.

Lemma run_coherent (es : list Event) :
  forall s, coherent s -> coherent (run es s).
Proof.
  induction es as [|e es IH]; intros s Hs; [exact Hs|].
  rewrite run_cons. now apply IH, step_coherent.
Qed.

Lemma mounted_page_coherent : coherent mounted_page.
Proof.
  intros _. split; [|split].
  - intros r v E. injection E as <- <-. split; [reflexivity | apply N.le_refl].
  - intros E. discriminate E.
  - exists []. reflexivity.
Qed.

Lemma step_Tick_keeps_filters (ms : N) (s : State) :
  searchQuery (step (Tick ms) s) = searchQuery s /\
  merchantFilter (step (Tick ms) s) = merchantFilter s /\
  mounted (step (Tick ms) s) = mounted s.
Proof. destruct s. page_cases; repeat split. Qed.

(** Reset fetches at once when it changes the merchant filter, with the
    debounced text as it still is. *)
Lemma step_ClickReset_requests (s : State) :
  mounted s = true ->
  mounted (step ClickReset s) = true /\
  debouncedValue (step ClickReset s) = debouncedValue s /\
  requests (step ClickReset s)
  = requests s ++ (if eqb (merchantFilter s) empty then []
                   else [paramsFor (debouncedValue s) empty]).
Proof.
  intros Hm. destruct s. cbn in Hm. subst. unfold paramsFor.
  page_cases; rewrite ?app_nil_r; repeat split.
Qed.

(** Where the claim on Reset does hold: on a page reached from mounting,
    Reset followed by a full delay with nothing else happening leaves the
    filters and the debounced text empty, and the last fetch issued is one
    with no parameters; a fetch is issued after the Reset exactly when the
    merchant filter or the debounced text was not empty already. *)
Lemma reset_then_wait (s : State) :
  coherent s -> mounted s = true ->
  let s' := run [ClickReset; Tick delay] s in
  searchQuery s' = empty /\ merchantFilter s' = empty /\
  debouncedValue s' = empty /\
  (exists earlier, requests s' = earlier ++ [Api.mkParams None None]) /\
  (issuedSince s s' = [] <->
   eqb (merchantFilter s) empty && eqb (debouncedValue s) empty = true).
Proof.
  intros Hc Hm. cbv zeta.
  change (run [ClickReset; Tick delay] s)
    with (step (Tick delay) (step ClickReset s)).
  destruct (step_ClickReset_clears s Hm) as (R1 & R2 & _).
  destruct (step_ClickReset_requests s Hm) as (R3 & R4 & R5).
  assert (Hc1 := step_coherent ClickReset s Hc).
  remember (step ClickReset s) as s1 eqn:Es1.
  assert (Hc2 := step_coherent (Tick delay) s1 Hc1).
  destruct (step_Tick_keeps_filters delay s1) as (K1 & K2 & K3).
  destruct (Hc1 R3) as (I1 & I2 & _).
  assert (D : debouncedValue (step (Tick delay) s1) = empty /\
              requests (step (Tick delay) s1)
              = requests s1 ++ (if eqb (debouncedValue s) empty then []
                                else [paramsFor empty empty])).
  { destruct (timer s1) as [[r v]|] eqn:Et.
    - destruct (I1 r v eq_refl) as [Ev Hr]. rewrite R1 in Ev. subst v.
      destruct (step_Tick_due delay r empty s1 R3 Et Hr) as (_ & _ & T3 & T4).
      cbv zeta in *. split; [exact T3|]. now rewrite T4, R4, R2.
    - rewrite (step_Tick_idle delay s1 Et).
      assert (E := I2 eq_refl). rewrite R1 in E. split; [exact E|].
      rewrite <- R4, E. simpl. now rewrite app_nil_r. }
  destruct D as [D1 D2].
  split; [congruence|]. split; [congruence|]. split; [exact D1|]. split.
  - destruct Hc2 as (_ & _ & earlier & L); [congruence|].
    exists earlier. rewrite L, D1, K2, R2. reflexivity.
  - rewrite (issuedSince_app s (step (Tick delay) s1)
               ((if eqb (merchantFilter s) empty then []
                 else [paramsFor (debouncedValue s) empty])
                ++ (if eqb (debouncedValue s) empty then []
                    else [paramsFor empty empty])));
      [|now rewrite D2, R5, app_assoc].
    destruct (eqb (merchantFilter s) empty), (eqb (debouncedValue s) empty);
      simpl; split; congruence.
Qed.

(** ** Further facts: filters, retries and responses *)

(** X1. Choosing another merchant fetches in the same transition, with
    the new merchant, trimmed, and the debounced text as it is; the typed
    text, the debounced text and the pending timeout are not touched, the
    error message is cleared and the page is loading. *)
Theorem merchant_change_fetches_at_once (s : State) (v : jsstring) :
  mounted s = true -> eqb (merchantFilter s) v = false ->
  let s' := step (ChangeMerchant v) s in
  issuedSince s s' = [paramsFor (debouncedValue s) v] /\
  merchantFilter s' = v /\
  searchQuery s' = searchQuery s /\
  debouncedValue s' = debouncedValue s /\
  timer s' = timer s /\
  error s' = empty /\ loading s' = true.
Proof.
  intros Hm Hv. cbv zeta.
  assert (E : step (ChangeMerchant v) s
              = loadAllPerks (setMerchantFilter v s)).
  { destruct s. cbn in Hm, Hv. subst. page_simpl. rewrite Hv. page_simpl.
    reflexivity. }
  rewrite E. split; [|repeat split].
  apply issuedSince_app. reflexivity.
Qed.

Lemma merchant_change_fetches_at_once_witness :
  let s := mounted_page in
  let s' := step (ChangeMerchant (lit " Acme ")) s in
  mounted s = true /\ eqb (merchantFilter s) (lit " Acme ") = false /\
  issuedSince s s' = [Api.mkParams None (Some (lit "Acme"))] /\
  timer s' = timer s.
Proof.
  cbv zeta.
  destruct (merchant_change_fetches_at_once mounted_page (lit " Acme "))
    as (H1 & _ & _ & _ & H5 & _); [reflexivity | reflexivity |].
  split; [reflexivity|]. split; [reflexivity|]. split; [exact H1 | exact H5].
Defined.

(** X2. An [onChange] that delivers the value already in the state
    changes nothing at all: the debounce timeout is not re-armed and no
    fetch is issued. *)
Theorem change_to_same_value_is_ignored (s : State) :
  step (ChangeSearch (searchQuery s)) s = s /\
  step (ChangeMerchant (merchantFilter s)) s = s.
Proof.
  destruct s. split; page_cases; reflexivity.
Qed.

(** X3. Typing never fetches by itself: whatever is typed, in whatever
    state, the transition issues no request and leaves the debounced
    text, the perks, the loading flag and the error message as they
    are. *)
Theorem typing_never_fetches (s : State) (v : jsstring) :
  let s' := step (ChangeSearch v) s in
  requests s' = requests s /\ debouncedValue s' = debouncedValue s /\
  perks s' = perks s /\ loading s' = loading s /\ error s' = error s /\
  merchantFilter s' = merchantFilter s.
Proof.
  destruct s. page_cases; repeat split.
Qed.

(** X4. Whenever a transition issues a fetch, it leaves the error message
    empty and the page loading. *)
Theorem issuing_a_fetch_clears_error_and_sets_loading (e : Event) (s : State) :
  requests (step e s) <> requests s ->
  error (step e s) = empty /\ loading (step e s) = true.
Proof.
  destruct s, e; page_cases; intros H;
    try (now contradiction H); split; reflexivity.
Qed.

Lemma issuing_a_fetch_clears_error_and_sets_loading_witness :
  let s := run [Reject 0 None] mounted_page in
  requests (step ClickTryAgain s) <> requests s /\
  error s = fallbackMessage /\
  error (step ClickTryAgain s) = empty /\ loading (step ClickTryAgain s) = true.
Proof.
  cbv zeta.
  assert (H : requests (step ClickTryAgain (run [Reject 0 None] mounted_page))
              <> requests (run [Reject 0 None] mounted_page)) by discriminate.
  split; [exact H|]. split; [reflexivity|].
  exact (issuing_a_fetch_clears_error_and_sets_loading ClickTryAgain
           (run [Reject 0 None] mounted_page) H).
Defined.

(** X5. A resolved request of the mounted page replaces [perks] by the
    list of the response and the merchant list by the one derived from
    it, and ends the loading; it leaves the error message, both filters,
    the debounced text and the pending timeout as they are, issues no
    fetch, and is out of flight afterwards. *)
Theorem resolved_fetch_replaces_perks_only
    (s : State) (i : nat) (ps : list Perk) :
  mounted s = true -> In i (pending s) ->
  let s' := step (Resolve i ps) s in
  perks s' = ps /\
  uniqueMerchants s' = deriveUniqueMerchants ps /\
  loading s' = false /\
  error s' = error s /\
  searchQuery s' = searchQuery s /\ merchantFilter s' = merchantFilter s /\
  debouncedValue s' = debouncedValue s /\ timer s' = timer s /\
  requests s' = requests s /\
  ~ In i (pending s').
Proof.
  intros Hm Hi. cbv zeta. rewrite (step_Resolve i ps s Hm Hi).
  repeat (split; [reflexivity|]).
  simpl. intros H. apply filter_In in H as [_ H].
  rewrite Nat.eqb_refl in H. discriminate H.
Qed.

Lemma resolved_fetch_replaces_perks_only_witness :
  let s := run [Submit; Reject 0 None] mounted_page in
  let ps := [mkPerk (lit "p1") (lit "Tea") (lit "food") (Some (lit "Acme"))] in
  let s' := step (Resolve 1 ps) s in
  mounted s = true /\ In 1 (pending s) /\
  perks s' = ps /\ uniqueMerchants s' = [lit "Acme"] /\
  error s' = fallbackMessage.
Proof.
  cbv zeta.
  destruct (resolved_fetch_replaces_perks_only
              (run [Submit; Reject 0 None] mounted_page) 1
              [mkPerk (lit "p1") (lit "Tea") (lit "food") (Some (lit "Acme"))])
    as (H1 & H2 & _ & H4 & _); [reflexivity | simpl; now left |].
  split; [reflexivity|]. split; [simpl; now left|].
  split; [exact H1|]. split; [exact H2 | exact H4].
Defined.

(** X6. The loading flag does not count requests: with two requests in
    flight, the settling of one, resolved or rejected, ends the loading
    while the other is still in flight. *)
Theorem loading_ends_at_first_settled_request
    (s : State) (i j : nat) (ps : list Perk) (err : option Api.Err) :
  mounted s = true -> In i (pending s) -> In j (pending s) -> i <> j ->
  loading (step (Resolve i ps) s) = false /\
  In j (pending (step (Resolve i ps) s)) /\
  loading (step (Reject i err) s) = false /\
  In j (pending (step (Reject i err) s)).
Proof.
  intros Hm Hi Hj Hij.
  assert (Hf : In j (filter (fun k => negb (Nat.eqb i k)) (pending s))).
  { apply filter_In. split; [assumption|].
    apply negb_true_iff, Nat.eqb_neq. exact Hij. }
  rewrite (step_Resolve i ps s Hm Hi), (step_Reject i err s Hm Hi).
  repeat split; exact Hf.
Qed.

Lemma loading_ends_at_first_settled_request_witness :
  let s := step Submit mounted_page in
  mounted s = true /\ In 0 (pending s) /\ In 1 (pending s) /\
  loading (step (Resolve 0 []) s) = false /\
  In 1 (pending (step (Resolve 0 []) s)) /\
  loading (step (Reject 0 None) s) = false /\
  In 1 (pending (step (Reject 0 None) s)).
Proof.
  cbv zeta. split; [reflexivity|]. split; [simpl; now left|].
  split; [simpl; right; now left|].
  apply (loading_ends_at_first_settled_request (step Submit mounted_page)
           0 1 [] None).
  - reflexivity.
  - simpl. now left.
  - simpl. right. now left.
  - discriminate.
Defined.

(** ** Further facts: what the loading flag and the error message say *)

Lemma step_loadingBacked (e : Event) (s : State) :
  loadingBacked s -> loadingBacked (step e s).
Proof.
  unfold loadingBacked.
  destruct s as [? ? ? ? ? ? ? ? [|] ? ? ? ?];
    cbn [mounted loading requests pending].
  - intros Inv. specialize (Inv eq_refl).
    destruct e; page_cases; intros Hm Hl;
      try discriminate Hm; try discriminate Hl; auto.
    all: rewrite length_app, Nat.add_comm; simpl;
      (split; [apply in_or_app; right; now left
              | intros E; apply app_eq_nil in E as [_ E]; discriminate E]).
  - intros _. destruct e; page_cases; intros Hm; discriminate Hm.
Qed.

Lemma run_loadingBacked (es : list Event) :
  forall s, loadingBacked s -> loadingBacked (run es s).
Proof.
  induction es as [|e es IH]; intros s Hs; [exact Hs|].
  rewrite run_cons. now apply IH, step_loadingBacked.
Qed.

Lemma mounted_page_loadingBacked : loadingBacked mounted_page.
Proof. intros _ _. split; [simpl; now left | discriminate]. Qed.

Lemma step_errorQuiet (e : Event) (s : State) :
  errorQuiet s -> errorQuiet (step e s).
Proof.
  unfold errorQuiet. destruct s. cbn [error loading]. intros Inv.
  destruct e; page_cases; intros Ht; try discriminate Ht; auto.
Qed.

Lemma run_errorQuiet (es : list Event) :
  forall s, errorQuiet s -> errorQuiet (run es s).
Proof.
  induction es as [|e es IH]; intros s Hs; [exact Hs|].
  rewrite run_cons. now apply IH, step_errorQuiet.
Qed.

(** X7. On the mounted page, however it was reached, "Searching..." is
    shown only while a request is in flight: the one issued last. *)
Theorem searching_shown_only_while_in_flight (es : list Event) :
  let s := run es mounted_page in
  mounted s = true -> showsSearching s = true ->
  In (pred (List.length (requests s))) (pending s) /\ pending s <> [].
Proof.
  cbv zeta. intros Hm Hl.
  destruct (run_loadingBacked es mounted_page mounted_page_loadingBacked Hm Hl)
    as [Hin _].
  split; [exact Hin|]. intros E. rewrite E in Hin. exact Hin.
Qed.

Lemma searching_shown_only_while_in_flight_witness :
  let s := run [Resolve 0 []; ChangeMerchant (lit "Acme"); Tick 100]
               mounted_page in
  mounted s = true /\ showsSearching s = true /\
  In (pred (List.length (requests s))) (pending s) /\ pending s <> [].
Proof.
  cbv zeta. split; [reflexivity|]. split; [|
    apply (searching_shown_only_while_in_flight
             [Resolve 0 []; ChangeMerchant (lit "Acme"); Tick 100]);
    reflexivity].
  reflexivity.
Defined.

(** X8. However the page was reached, the error card and "Searching..."
    are never shown together: while an error message is set the page is
    not loading. *)
Theorem error_card_never_shown_while_searching (es : list Event) :
  let s := run es mounted_page in
  errorCard s <> None -> showsSearching s = false.
Proof.
  cbv zeta. intros H. apply (run_errorQuiet es mounted_page).
  - intros Ht. discriminate Ht.
  - unfold errorCard in H.
    destruct (truthy (error (run es mounted_page))); [reflexivity|].
    now contradiction H.
Qed.

Lemma error_card_never_shown_while_searching_witness :
  let s := run [Submit; Reject 1 None] mounted_page in
  errorCard s = Some fallbackMessage /\ showsSearching s = false /\
  pending s = [0].
Proof.
  cbv zeta. split; [reflexivity|]. split; [|reflexivity].
  apply (error_card_never_shown_while_searching [Submit; Reject 1 None]).
  discriminate.
Defined.

(** X9. The two placeholders of the grid exclude each other: exactly one
    of "No perks found." and "Loading perks..." is shown when there are
    no perks, the second one while loading, and neither when there are
    perks. *)
Theorem grid_placeholders_are_exclusive (s : State) :
  xorb (showsLoadingPerks s) (showsNoPerksFound s)
  = Nat.eqb (List.length (perks s)) 0 /\
  showsLoadingPerks s && showsNoPerksFound s = false /\
  showsLoadingPerks s = loading s && Nat.eqb (List.length (perks s)) 0.
Proof.
  unfold showsLoadingPerks, showsNoPerksFound.
  destruct (perks s), (loading s); repeat split.
Qed.

(** X10. A rejected request of a mounted page that holds no perks leaves
    the error card, with the message the rejection set, and "No perks
    found." on the page together, and neither "Loading perks..." nor
    "Searching...". *)
Theorem rejected_load_of_empty_page_shows_error_and_no_perks
    (s : State) (i : nat) (err : option Api.Err) :
  mounted s = true -> In i (pending s) -> perks s = [] ->
  let s' := step (Reject i err) s in
  errorCard s' = Some (orElse (Api.errMessage err) fallbackMessage) /\
  showsNoPerksFound s' = true /\
  showsLoadingPerks s' = false /\ showsSearching s' = false.
Proof.
  intros Hm Hi Hp. cbv zeta. rewrite (step_Reject i err s Hm Hi).
  unfold errorCard, showsNoPerksFound, showsLoadingPerks, showsSearching.
  simpl. rewrite Hp. simpl.
  assert (Ht : truthy (orElse (Api.errMessage err) fallbackMessage) = true).
  { apply truthy_nonempty, orElse_nonempty, fallbackMessage_nonempty. }
  rewrite Ht. repeat split.
Qed.

Lemma rejected_load_of_empty_page_shows_error_and_no_perks_witness :
  let s' := step (Reject 0 None) mounted_page in
  mounted mounted_page = true /\ In 0 (pending mounted_page) /\
  perks mounted_page = [] /\
  errorCard s' = Some fallbackMessage /\
  showsNoPerksFound s' = true /\
  showsLoadingPerks s' = false /\ showsSearching s' = false.
Proof.
  cbv zeta. split; [reflexivity|]. split; [simpl; now left|].
  split; [reflexivity|].
  apply (rejected_load_of_empty_page_shows_error_and_no_perks
           mounted_page 0 None); [reflexivity | simpl; now left | reflexivity].
Defined.

(** ** Further facts: the page as reached from mounting *)

(** X11. On the mounted page, however it was reached, the request issued
    last carries the current debounced text and merchant filter; once the
    typed text has stayed for the whole delay the debounced text is the
    typed one, as it is whenever no timeout is pending. *)
Theorem last_request_matches_current_filters (es : list Event) (ms : N) :
  let s := run es mounted_page in
  mounted s = true -> (delay <= ms)%N ->
  (exists earlier,
     requests s
     = earlier ++ [paramsFor (debouncedValue s) (merchantFilter s)]) /\
  (timer s = None -> debouncedValue s = searchQuery s) /\
  debouncedValue (step (Tick ms) s) = searchQuery s.
Proof.
  cbv zeta. intros Hm Hms.
  destruct (run_coherent es mounted_page mounted_page_coherent Hm)
    as (I1 & I2 & I3).
  split; [exact I3|]. split; [exact I2|].
  destruct (timer (run es mounted_page)) as [[r v]|] eqn:Et.
  - destruct (I1 r v eq_refl) as [<- Hr].
    apply (step_Tick_due ms r v (run es mounted_page) Hm Et). lia.
  - rewrite (step_Tick_idle ms _ Et). now apply I2.
Qed.

Lemma last_request_matches_current_filters_witness :
  let s := run [ChangeMerchant (lit "Acme"); ChangeSearch (lit "tea");
                Tick 200] mounted_page in
  mounted s = true /\
  (exists earlier,
     requests s
     = earlier ++ [paramsFor (debouncedValue s) (merchantFilter s)]) /\
  (timer s = None -> debouncedValue s = searchQuery s) /\
  debouncedValue (step (Tick 500) s) = lit "tea".
Proof.
  cbv zeta. split; [reflexivity|].
  apply (last_request_matches_current_filters
           [ChangeMerchant (lit "Acme"); ChangeSearch (lit "tea"); Tick 200]
           500); [reflexivity | discriminate].
Defined.

(** X12. Try Again, on the mounted page with an error message shown,
    issues once more the very request that was issued last, clears the
    error message and sets the page loading; with no error message shown
    there is no button and nothing happens. *)
Theorem try_again_repeats_the_last_request (es : list Event) :
  let s := run es mounted_page in
  mounted s = true ->
  (errorCard s <> None ->
   exists earlier r,
     requests s = earlier ++ [r] /\
     requests (step ClickTryAgain s) = earlier ++ [r; r] /\
     error (step ClickTryAgain s) = empty /\
     loading (step ClickTryAgain s) = true) /\
  (errorCard s = None -> step ClickTryAgain s = s).
Proof.
  cbv zeta. intros Hm.
  destruct (run_coherent es mounted_page mounted_page_coherent Hm)
    as (_ & _ & earlier & I3).
  remember (run es mounted_page) as s eqn:Es. clear Es.
  unfold errorCard. split.
  - intros He. assert (Ht : truthy (error s) = true).
    { destruct (truthy (error s)); [reflexivity | now contradiction He]. }
    assert (E : step ClickTryAgain s = loadAllPerks s).
    { destruct s. cbn in Hm, Ht. subst. page_simpl. rewrite Ht. page_simpl.
      reflexivity. }
    exists earlier, (paramsFor (debouncedValue s) (merchantFilter s)).
    rewrite E. split; [exact I3|]. split; [|split; reflexivity].
    simpl. rewrite I3, <- app_assoc. reflexivity.
  - intros He. simpl. rewrite Hm.
    destruct (truthy (error s)); [discriminate He | reflexivity].
Qed.

Lemma try_again_repeats_the_last_request_witness :
  let s := run [ChangeMerchant (lit "Acme"); Reject 1 None] mounted_page in
  mounted s = true /\ errorCard s <> None /\
  requests (step ClickTryAgain s)
  = [Api.mkParams None None; Api.mkParams None (Some (lit "Acme"));
     Api.mkParams None (Some (lit "Acme"))].
Proof.
  cbv zeta. split; [reflexivity|]. split; [discriminate|].
  destruct (try_again_repeats_the_last_request
              [ChangeMerchant (lit "Acme"); Reject 1 None] eq_refl)
    as [H _].
  destruct H as (earlier & r & _ & H2 & _); [discriminate|].
  reflexivity.
Defined.

Lemma reset_then_wait_requests (s : State) :
  coherent s -> mounted s = true ->
  requests (run [ClickReset; Tick delay] s)
  = requests s
    ++ (if eqb (merchantFilter s) empty then []
        else [paramsFor (debouncedValue s) empty])
    ++ (if eqb (debouncedValue s) empty then []
        else [Api.mkParams None None]).
Proof.
  intros Hc Hm.
  change (run [ClickReset; Tick delay] s)
    with (step (Tick delay) (step ClickReset s)).
  destruct (step_ClickReset_clears s Hm) as (R1 & R2 & _).
  destruct (step_ClickReset_requests s Hm) as (R3 & R4 & R5).
  assert (Hc1 := step_coherent ClickReset s Hc).
  remember (step ClickReset s) as s1 eqn:Es1.
  destruct (Hc1 R3) as (I1 & I2 & _).
  destruct (timer s1) as [[r v]|] eqn:Et.
  - destruct (I1 r v eq_refl) as [Ev Hr]. rewrite R1 in Ev. subst v.
    destruct (step_Tick_due delay r empty s1 R3 Et Hr) as (_ & _ & _ & T4).
    cbv zeta in T4. rewrite T4, R5, R4, R2, <- app_assoc. reflexivity.
  - rewrite (step_Tick_idle delay s1 Et), R5.
    assert (E := I2 eq_refl). rewrite R1, R4 in E.
    rewrite E, eqb_refl, app_nil_r. reflexivity.
Qed.

(** X13. Reset on the mounted page, however it was reached, then a full
    delay with nothing else happening: a fetch goes out at once only when
    a merchant was selected, and it still carries the debounced search
    text; a fetch with no parameters goes out when the timeout fires
    only when the debounced text was not empty. So a Reset with both
    filters in use fetches twice, and one with neither not at all. *)
Theorem reset_fetches_in_two_phases (es : list Event) :
  let s := run es mounted_page in
  mounted s = true ->
  issuedSince s (step ClickReset s)
  = (if eqb (merchantFilter s) empty then []
     else [paramsFor (debouncedValue s) empty]) /\
  issuedSince s (run [ClickReset; Tick delay] s)
  = (if eqb (merchantFilter s) empty then []
     else [paramsFor (debouncedValue s) empty])
    ++ (if eqb (debouncedValue s) empty then []
        else [Api.mkParams None None]) /\
  debouncedValue (run [ClickReset; Tick delay] s) = empty.
Proof.
  cbv zeta. intros Hm.
  assert (Hc := run_coherent es mounted_page mounted_page_coherent).
  split; [|split].
  - apply issuedSince_app. now apply step_ClickReset_requests.
  - apply issuedSince_app. now apply reset_then_wait_requests.
  - now apply reset_then_wait.
Qed.

Lemma reset_fetches_in_two_phases_witness :
  let s := run [ChangeSearch (lit "tea"); Tick 500;
                ChangeMerchant (lit "Acme")] mounted_page in
  mounted s = true /\
  issuedSince s (run [ClickReset; Tick delay] s)
  = [Api.mkParams (Some (lit "tea")) None; Api.mkParams None None].
Proof.
  cbv zeta. split; [reflexivity|].
  destruct (reset_fetches_in_two_phases
              [ChangeSearch (lit "tea"); Tick 500; ChangeMerchant (lit "Acme")]
              eq_refl) as (_ & H & _).
  exact H.
Defined.

(** ** Further facts: the merchant select and the cards *)

Lemma someValues_length (l : list (option jsstring)) :
  List.length (someValues l) <= List.length l.
Proof.
  induction l as [|[x|] l IH]; simpl; lia.
Qed.

Lemma merchantsOf_length (ps : list Perk) :
  List.length (merchantsOf ps) <= List.length ps.
Proof.
  unfold merchantsOf.
  rewrite someValues_length, filter_length_le, length_map. reflexivity.
Qed.

Lemma deriveUniqueMerchants_In (ps : list Perk) (m : jsstring) :
  In m (deriveUniqueMerchants ps) <-> storedMerchant ps m.
Proof.
  unfold deriveUniqueMerchants.
  destruct (Set_of_spec (merchantsOf ps)) as (_ & Hin & _).
  rewrite Hin. apply merchantsOf_In.
Qed.

Lemma step_ChangeMerchant_new (v : jsstring) (s : State) :
  mounted s = true -> eqb (merchantFilter s) v = false ->
  step (ChangeMerchant v) s = loadAllPerks (setMerchantFilter v s).
Proof.
  intros Hm Hv. destruct s. cbn in Hm, Hv. subst. page_simpl. rewrite Hv.
  page_simpl. reflexivity.
Qed.

(** X14. However the page was reached, the options of the merchant
    select have pairwise different values, none of the merchant options
    having the empty value of "All Merchants", and there are at most as
    many merchant options as perks. Selecting a merchant option that is
    not the current filter makes the mounted page issue one fetch, whose
    [merchant] parameter is present and holds the trimmed name, next to
    the current debounced text; and while a merchant option is the
    current filter, the request issued last carries its trimmed name. *)
Theorem merchant_options_are_distinct_and_filter (es : list Event) :
  let s := run es mounted_page in
  NoDup (merchantOptions s) /\
  List.length (uniqueMerchants s) <= List.length (perks s) /\
  (forall m, In m (uniqueMerchants s) -> trim m <> empty) /\
  (forall m, In m (uniqueMerchants s) -> mounted s = true ->
             eqb (merchantFilter s) m = false ->
             exists r,
               issuedSince s (step (ChangeMerchant m) s) = [r] /\
               Api.merchant r = Some (trim m) /\
               Api.search r = orUndefined (trim (debouncedValue s)) /\
               merchantFilter (step (ChangeMerchant m) s) = m) /\
  (forall m, In m (uniqueMerchants s) -> mounted s = true ->
             merchantFilter s = m ->
             exists earlier r,
               requests s = earlier ++ [r] /\
               Api.merchant r = Some (trim m)).
Proof.
  cbv zeta. unfold merchantOptions.
  assert (Hc := run_coherent es mounted_page mounted_page_coherent).
  rewrite (run_uniqueMerchants es mounted_page eq_refl).
  remember (run es mounted_page) as s eqn:Es. clear Es.
  assert (Hne : forall m, In m (deriveUniqueMerchants (perks s)) ->
                          trim m <> empty).
  { intros m Hm. apply deriveUniqueMerchants_In in Hm.
    now destruct Hm as (p & _ & _ & Ht). }
  assert (Hsent : forall m, In m (deriveUniqueMerchants (perks s)) ->
                            orUndefined (trim m) = Some (trim m)).
  { intros m Hm. destruct (orUndefined_carries m) as [_ H].
    now apply H, Hne. }
  destruct (Set_of_spec (merchantsOf (perks s))) as (Hnd & Hin & _).
  split; [|split; [|split; [|split]]].
  - constructor; [|exact Hnd]. intros H. now apply (Hne empty H).
  - rewrite <- merchantsOf_length. apply NoDup_incl_length; [exact Hnd|].
    intros x Hx. now apply Hin.
  - exact Hne.
  - intros m Hm Hmt Hv. rewrite (step_ChangeMerchant_new m s Hmt Hv).
    eexists. split; [apply issuedSince_app; reflexivity|].
    split; [exact (Hsent m Hm) | split; reflexivity].
  - intros m Hm Hmt Hv. destruct (Hc Hmt) as (_ & _ & earlier & I3).
    exists earlier. eexists. split; [exact I3|].
    simpl. rewrite Hv. exact (Hsent m Hm).
Qed.

Lemma merchant_options_are_distinct_and_filter_witness :
  let s := run [Resolve 0 [mkPerk (lit "p1") (lit "Tea") (lit "food")
                                  (Some (lit " Acme "));
                           mkPerk (lit "p2") (lit "Bus") (lit "travel")
                                  (Some (lit "Zed"))]] mounted_page in
  merchantOptions s = [empty; lit " Acme "; lit "Zed"] /\
  issuedSince s (step (ChangeMerchant (lit " Acme ")) s)
  = [Api.mkParams None (Some (lit "Acme"))].
Proof.
  cbv zeta. split; [reflexivity|].
  destruct (merchant_options_are_distinct_and_filter
              [Resolve 0 [mkPerk (lit "p1") (lit "Tea") (lit "food")
                                 (Some (lit " Acme "));
                          mkPerk (lit "p2") (lit "Bus") (lit "travel")
                                 (Some (lit "Zed"))]])
    as (_ & _ & _ & H & _).
  destruct (H (lit " Acme ")) as (r & Hr & Hm & Hs & _);
    [simpl; now left | reflexivity | reflexivity |].
  rewrite Hr. destruct r as [rs rm]. simpl in Hm, Hs. now subst.
Defined.

(** X15. Every merchant offered by the select is shown in the merchant
    row of some card of the same list of perks; a merchant name made of
    whitespace only is shown on its card and offered by no option. *)
Theorem select_merchants_are_shown_on_cards (ps : list Perk) :
  (forall m, In m (deriveUniqueMerchants ps) ->
             exists p, In p ps /\ cardMerchant p = Some m) /\
  (forall p m, In p ps -> merchant p = Some m ->
               m <> empty -> trim m = empty ->
               cardMerchant p = Some m /\ ~ In m (deriveUniqueMerchants ps)).
Proof.
  split.
  - intros m Hm. apply deriveUniqueMerchants_In in Hm.
    destruct Hm as (p & Hp & Hmp & Ht). exists p. split; [exact Hp|].
    unfold cardMerchant. rewrite Hmp.
    destruct m; [now contradiction Ht | reflexivity].
  - intros p m Hp Hmp Hne Ht. split.
    + unfold cardMerchant. rewrite Hmp.
      destruct m; [now contradiction Hne | reflexivity].
    + intros Hin. apply deriveUniqueMerchants_In in Hin.
      destruct Hin as (q & _ & _ & Hq). now apply Hq.
Qed.

(** ** Further facts: submitting before the debounce *)

Lemma step_Submit (s : State) :
  mounted s = true -> step Submit s = loadAllPerks s.
Proof.
  intros Hm. destruct s. cbn in Hm. subst. page_simpl. reflexivity.
Qed.

(** X16. A submit on the mounted page, however it was reached, followed
    by a full delay with nothing else happening: the submit fetches with
    the debounced text, and when the typed text differs from it the
    timeout that was pending still fires and fetches again, with the
    typed text; when they agree the submit's fetch is the only one. *)
Theorem submit_then_debounce_fetches_typed_text (es : list Event) (ms : N) :
  let s := run es mounted_page in
  mounted s = true -> (delay <= ms)%N ->
  issuedSince s (run [Submit; Tick ms] s)
  = paramsFor (debouncedValue s) (merchantFilter s)
    :: (if eqb (debouncedValue s) (searchQuery s) then []
        else [paramsFor (searchQuery s) (merchantFilter s)]).
Proof.
  cbv zeta. intros Hm Hms.
  destruct (run_coherent es mounted_page mounted_page_coherent Hm)
    as (I1 & I2 & _).
  remember (run es mounted_page) as s eqn:Es. clear Es.
  change (run [Submit; Tick ms] s) with (step (Tick ms) (step Submit s)).
  rewrite (step_Submit s Hm). apply issuedSince_app.
  destruct (timer s) as [[r v]|] eqn:Et.
  - destruct (I1 r v eq_refl) as [-> Hr].
    assert (Hr' : (r <= ms)%N) by lia.
    destruct (step_Tick_due ms r (searchQuery s) (loadAllPerks s) Hm Et Hr')
      as (_ & _ & _ & T4).
    cbv zeta in T4. rewrite T4. simpl. rewrite <- app_assoc. reflexivity.
  - rewrite (step_Tick_idle ms (loadAllPerks s) Et).
    unfold paramsFor. simpl. rewrite (I2 eq_refl), eqb_refl. reflexivity.
Qed.

Lemma submit_then_debounce_fetches_typed_text_witness :
  let s := run [ChangeSearch (lit "coffee"); Tick 100] mounted_page in
  mounted s = true /\
  issuedSince s (run [Submit; Tick 500] s)
  = [Api.mkParams None None; Api.mkParams (Some (lit "coffee")) None].
Proof.
  cbv zeta. split; [reflexivity|].
  apply (submit_then_debounce_fetches_typed_text
           [ChangeSearch (lit "coffee"); Tick 100] 500);
    [reflexivity | discriminate].
Defined.
